(** * medicare-app: the dependent multi-select field and the profile header

    A shallow embedding of
    [src/components/input-component/multi-select-input.tsx]:

    - [CustomFormMultiSelect]: its local state ([options], [loading]), the
      option-loading effect, the rendered trigger button and dropdown, and
      the [onSelect] / [onClick] handlers bound to the form field;
    - [ProfileHeader]: [handleProfileImageChange].

    Handlers and effects are written in a small monad that threads the
    component state, records every observable call (state setters,
    [field.onChange], [loadOptions], [console.error], [toast], awaited
    timers) in a trace, and carries JavaScript exceptions, with
    [try]/[catch]/[finally] as combinators. *)

From Stdlib Require Import String Ascii List Bool ZArith Lia Permutation.
Import ListNotations.
Local Open Scope string_scope.
Local Open Scope list_scope.

(** ** Values shared by the two components *)

(** A thrown JavaScript value. *)
Inductive Exn : Type :=
| Error (message : string).

(** [interface Option { value: string; label: string }] *)
Record Option : Type := mkOption {
  value : string;
  label : string
}.

(** What [useWatch] may hand back for the watched field. *)
Inductive JsValue : Type :=
| JsUndefined
| JsNull
| JsBool (b : bool)
| JsNumber (n : Z)
| JsString (s : string)
| JsArray (items : list string).

(** The object literal [{ [dependsOn]: dependencyValue }]: own keys in
    insertion order. *)
Definition FormDataArg : Type := list (string * JsValue).

(** Argument of [toast({ title, description, variant })]. *)
Record ToastArgs : Type := mkToast {
  title : string;
  description : string;
  variant : string
}.

(** Observable calls, in the order the code makes them. *)
Inductive Event : Type :=
| SetOptions (opts : list Option)
| SetLoading (b : bool)
| LoadOptionsCalled (formData : option FormDataArg)
| ConsoleError (message : string) (error : Exn)
| FieldOnChange (newValue : list string)
| StopPropagation
| SetIsUploading (b : bool)
| Awaited (ms : Z)
| ToastShown (t : ToastArgs).

(** ** The effect monad *)

Module Eff.

Inductive Outcome (A : Type) : Type :=
| Returned (a : A)
| Thrown (e : Exn).
Arguments Returned {A} a.
Arguments Thrown {A} e.

Record Run (S A : Type) : Type := mkRun {
  final : S;
  trace : list Event;
  outcome : Outcome A
}.
Arguments mkRun {S A} final trace outcome.
Arguments final {S A} r.
Arguments trace {S A} r.
Arguments outcome {S A} r.

Definition M (S A : Type) : Type := S -> Run S A.

Section Ops.
Context {S : Type}.

Definition ret {A} (a : A) : M S A :=
  fun s => mkRun s [] (Returned a).

Definition throw {A} (e : Exn) : M S A :=
  fun s => mkRun s [] (Thrown e).

Definition bind {A B} (m : M S A) (k : A -> M S B) : M S B :=
  fun s =>
    let r := m s in
    match outcome r with
    | Returned a =>
        let r' := k a (final r) in
        mkRun (final r') (trace r ++ trace r') (outcome r')
    | Thrown e => mkRun (final r) (trace r) (Thrown e)
    end.

Definition emit (ev : Event) : M S unit :=
  fun s => mkRun s [ev] (Returned tt).

Definition modify (f : S -> S) : M S unit :=
  fun s => mkRun (f s) [] (Returned tt).

(** [try { body } catch (error) { handler error }] *)
Definition try_catch {A} (body : M S A) (handler : Exn -> M S A) : M S A :=
  fun s =>
    let r := body s in
    match outcome r with
    | Returned a => r
    | Thrown e =>
        let r' := handler e (final r) in
        mkRun (final r') (trace r ++ trace r') (outcome r')
    end.

(** [try { body } finally { fin }]: [fin] always runs; the outcome of
    [body] stands unless [fin] itself throws. *)
Definition try_finally {A} (body : M S A) (fin : M S unit) : M S A :=
  fun s =>
    let r := body s in
    let r' := fin (final r) in
    mkRun (final r') (trace r ++ trace r')
          match outcome r' with
          | Returned _ => outcome r
          | Thrown e => Thrown e
          end.

(** [try { body } catch (error) { handler error } finally { fin }] *)
Definition try_catch_finally {A}
    (body : M S A) (handler : Exn -> M S A) (fin : M S unit) : M S A :=
  try_finally (try_catch body handler) fin.

(** Result of an awaited promise (or of a call that may throw). *)
Definition settle {A} (r : Exn + A) : M S A :=
  match r with
  | inr a => ret a
  | inl e => throw e
  end.

End Ops.

Module Notations.
Notation "x <- m ;; k" := (bind m (fun x => k))
  (at level 61, m at next level, right associativity).
Notation "m ;; k" := (bind m (fun _ => k))
  (at level 61, right associativity).
End Notations.

End Eff.

Import Eff Eff.Notations.

(** ** JavaScript helpers used by the component *)

(** Truthiness of an optional string prop: [undefined] and [""] are falsy. *)
Definition truthy (s : option string) : bool :=
  match s with
  | None => false
  | Some s => negb (s =? "")
  end.

(** [Array.prototype.includes] on strings. *)
Definition includes (l : list string) (x : string) : bool :=
  existsb (String.eqb x) l.

(** [l.filter((v) => v !== x)] *)
Definition without (x : string) (l : list string) : list string :=
  filter (fun v => negb (v =? x)) l.

(** [options.find((opt) => opt.value === x)] *)
Definition find_option (opts : list Option) (x : string) : option Option :=
  find (fun opt => value opt =? x) opts.

(** ** CustomFormMultiSelect *)

Module MultiSelect.

(** [CustomFormMultiSelectProps]. [control] is represented by what the
    component reads from it: [watch], the current value of any form field.
    [disabled] already has its default [false] applied. [loadOptions]
    returns a promise: [inr] is the resolved list, [inl] the rejection. *)
Record Props : Type := mkProps {
  name : string;
  watch : string -> JsValue;
  labelText : string;
  placeholder : option string;
  initialOptions : list Option;
  disabled : bool;
  loadOptions : option (option FormDataArg -> Exn + list Option);
  dependsOn : option string
}.

(** The two [useState] cells, and the value of the bound form field
    ([field.value], [undefined] when unset). *)
Record State : Type := mkState {
  options : list Option;
  loading : bool;
  fieldValue : option (list string)
}.


Definition setOptions (opts : list Option) : M State unit :=
  emit (SetOptions opts) ;;
  modify (fun s => mkState opts (loading s) (fieldValue s)).

Definition setLoading (b : bool) : M State unit :=
  emit (SetLoading b) ;;
  modify (fun s => mkState (options s) b (fieldValue s)).

(** [field.onChange(v)] *)
Definition field_onChange (v : list string) : M State unit :=
  emit (FieldOnChange v) ;;
  modify (fun s => mkState (options s) (loading s) (Some v)).

(** [dependsOn ? useWatch({ control, name: dependsOn }) : undefined] *)
Definition dependencyValue (p : Props) : JsValue :=
  match dependsOn p with
  | Some d => if truthy (Some d) then watch p d else JsUndefined
  | None => JsUndefined
  end.

(** [Boolean(v !== undefined && v !== null && v !== "")] *)
Definition hasValue (v : JsValue) : bool :=
  match v with
  | JsUndefined => false
  | JsNull => false
  | JsString s => negb (s =? "")
  | _ => true
  end.

Definition hasDependencyValue (p : Props) : bool :=
  hasValue (dependencyValue p).

(** [dependsOn ? { [dependsOn]: dependencyValue } : undefined] *)
Definition formDataOf (p : Props) : option FormDataArg :=
  match dependsOn p with
  | Some d => if truthy (Some d) then Some [(d, dependencyValue p)] else None
  | None => None
  end.

Definition errorMessage (p : Props) : string :=
  "Erreur lors du chargement des options pour " ++ name p ++ ":".

(** The inner [async] function of the effect. *)
Definition fetchOptions (p : Props) : M State unit :=
  match loadOptions p with
  | Some load =>
      try_catch_finally
        (setLoading true ;;
         let formData := formDataOf p in
         emit (LoadOptionsCalled formData) ;;
         fetchedOptions <- settle (load formData) ;;
         setOptions fetchedOptions)
        (fun error => emit (ConsoleError (errorMessage p) error))
        (setLoading false)
  | None => ret tt
  end.

(** The body of [useEffect]. *)
Definition effect (p : Props) : M State unit :=
  if negb (truthy (dependsOn p)) || hasDependencyValue p then
    fetchOptions p
  else if truthy (dependsOn p) then
    setOptions []
  else
    ret tt.

(** *** Rendering *)

Record CommandItem : Type := mkItem {
  item_key : string;
  item_value : string;
  item_checked : bool;
  item_label : string;
  onSelect : M State unit
}.

Record Badge : Type := mkBadge {
  badge_key : string;
  badge_text : string;
  badge_x : bool;
  onClick : M State unit
}.

(** [field.value?.includes(option.value)], as a condition. *)
Definition isSelected (fv : option (list string)) (o : Option) : bool :=
  match fv with
  | Some v => includes v (value o)
  | None => false
  end.

(** [field.value || []] *)
Definition selection (fv : option (list string)) : list string :=
  match fv with
  | Some v => v
  | None => []
  end.

(** The [onSelect] closure of one [CommandItem]. *)
Definition item_onSelect (fv : option (list string)) (o : Option)
  : M State unit :=
  let newValue := selection fv in
  let selectedValue := value o in
  field_onChange
    (if isSelected fv o
     then without selectedValue newValue
     else newValue ++ [selectedValue]).

Definition commandItem (fv : option (list string)) (o : Option)
  : CommandItem :=
  mkItem (value o) (value o) (isSelected fv o) (label o)
         (item_onSelect fv o).

(** The [onClick] closure of one [Badge]; [v] is [field.value]. *)
Definition badge_onClick (p : Props) (v : list string) (x : string)
  : M State unit :=
  emit StopPropagation ;;
  if disabled p then ret tt
  else
    let newValue := without x v in
    field_onChange newValue.

(** [option?.label || value] *)
Definition badgeText (opts : list Option) (x : string) : string :=
  match find_option opts x with
  | Some o => if label o =? "" then x else label o
  | None => x
  end.

Definition badge (p : Props) (s : State) (v : list string) (x : string)
  : Badge :=
  mkBadge x (badgeText (options s) x) (negb (disabled p))
          (badge_onClick p v x).

Inductive TriggerContent : Type :=
| Loading (text : string)
| SelectFirst (text : string)
| Badges (badges : list Badge)
| Placeholder (text : string).

Record Trigger : Type := mkTrigger {
  trigger_disabled : bool;
  trigger_muted : bool;
  trigger_content : TriggerContent
}.

(** The combobox [Button] inside [PopoverTrigger]. *)
Definition renderTrigger (p : Props) (s : State) : Trigger :=
  let blocked := truthy (dependsOn p) && negb (hasDependencyValue p) in
  mkTrigger
    (disabled p || loading s || blocked)
    (match fieldValue s with
     | Some (_ :: _) => false
     | _ => true
     end)
    (if loading s then Loading "Chargement..."
     else if blocked then
       SelectFirst ("Sélectionnez d'abord un "
                    ++ match dependsOn p with Some d => d | None => "" end)
     else
       match fieldValue s with
       | Some (x :: v) => Badges (map (badge p s (x :: v)) (x :: v))
       | _ =>
           Placeholder (if truthy (placeholder p)
                        then match placeholder p with
                             | Some t => t
                             | None => ""
                             end
                        else "Sélectionner...")
       end).

Inductive GroupChild : Type :=
| NoOptions (text : string)
| Item (it : CommandItem).

Inductive CommandChild : Type :=
| CommandInput (placeholder : string)
| Spinner
| CommandEmpty (text : string)
| CommandGroup (children : list GroupChild).

Definition renderGroup (s : State) : list GroupChild :=
  if (length (options s) =? 0)%nat && negb (loading s) then
    [NoOptions "Aucune option disponible"]
  else
    map (fun o => Item (commandItem (fieldValue s) o)) (options s).

(** The children of [Command] inside [PopoverContent]. *)
Definition renderCommand (s : State) : list CommandChild :=
  CommandInput "Rechercher..." ::
  (if loading s then [Spinner]
   else [CommandEmpty "Aucun résultat trouvé."; CommandGroup (renderGroup s)]).

(** The [CommandItem]s among the children of the group. *)
Fixpoint group_items (l : list GroupChild) : list CommandItem :=
  match l with
  | [] => []
  | Item it :: l' => it :: group_items l'
  | NoOptions _ :: l' => group_items l'
  end.

(** Every [CommandItem] the dropdown shows. *)
Fixpoint command_items (l : list CommandChild) : list CommandItem :=
  match l with
  | [] => []
  | CommandGroup g :: l' => group_items g ++ command_items l'
  | _ :: l' => command_items l'
  end.

(** Every placeholder text the dropdown shows in place of options. *)
Fixpoint command_notices (l : list CommandChild) : list string :=
  match l with
  | [] => []
  | CommandGroup g :: l' =>
      flat_map (fun c => match c with NoOptions t => [t] | Item _ => [] end) g
      ++ command_notices l'
  | _ :: l' => command_notices l'
  end.

(** The badges the trigger shows, if any. *)
Definition trigger_badges (t : Trigger) : list Badge :=
  match trigger_content t with
  | Badges bs => bs
  | _ => []
  end.

End MultiSelect.

(** ** ProfileHeader *)

Module ProfileHeader.

Record File : Type := mkFile {
  file_name : string;
  file_type : string
}.

(** [React.ChangeEvent<HTMLInputElement>]: [e.target.files] is a
    [FileList] or [null]. *)
Record ChangeEvent : Type := mkChange {
  files : option (list File)
}.

(** Calls into the browser and the toast hook that may throw. *)
Record Env : Type := mkEnv {
  createObjectURL : File -> Exn + string;
  toast : ToastArgs -> Exn + unit
}.

Record State : Type := mkState {
  isUploading : bool;
  coverIsUploading : bool
}.

Definition setIsUploading (b : bool) : M State unit :=
  emit (SetIsUploading b) ;;
  modify (fun s => mkState b (coverIsUploading s)).

Definition setCoverIsUploading (b : bool) : M State unit :=
  modify (fun s => mkState (isUploading s) b).

Definition show_toast (env : Env) (t : ToastArgs) : M State unit :=
  settle (toast env t) ;;
  emit (ToastShown t).

(** [await new Promise((resolve) => setTimeout(resolve, ms))] *)
Definition delay (ms : Z) : M State unit :=
  emit (Awaited ms).

(** [e.target.files?.[0]] *)
Definition firstFile (e : ChangeEvent) : option File :=
  match files e with
  | Some (f :: _) => Some f
  | _ => None
  end.

Definition successToast : ToastArgs :=
  mkToast "Image mise à jour"
          "Votre photo de profil a été mise à jour avec succès."
          "success".

Definition errorToast : ToastArgs :=
  mkToast "Erreur"
          "Une erreur est survenue lors de la mise à jour de votre photo."
          "destructive".

Definition coverToast : ToastArgs :=
  mkToast "Image de couverture mise à jour"
          "Votre image de couverture a été mise à jour avec succès."
          "success".

Definition handleProfileImageChange (env : Env) (e : ChangeEvent)
  : M State unit :=
  match firstFile e with
  | None => ret tt
  | Some file =>
      try_catch_finally
        (setIsUploading true ;;
         let formData := [("image", file)] in
         delay 1500 ;;
         imageUrl <- settle (createObjectURL env file) ;;
         show_toast env successToast)
        (fun error => show_toast env errorToast)
        (setIsUploading false)
  end.

Definition handleCoverImageChange (env : Env) (e : ChangeEvent)
  : M State unit :=
  setCoverIsUploading true ;;
  delay 1500 ;;
  setCoverIsUploading false ;;
  show_toast env coverToast.

(** *** The avatar fallback

    Strings are sequences of code units, one [ascii] each; [toUpperCase]
    is the JavaScript built-in, taken as given. *)






End ProfileHeader.

(** ** Sample inputs *)

Module Samples.
Import MultiSelect.

Definition cardio : Option := mkOption "cardio" "Cardiologie".
Definition derma : Option := mkOption "derma" "Dermatologie".
Definition neuro : Option := mkOption "neuro" "Neurologie".

Definition noForm : string -> JsValue := fun _ => JsUndefined.

Definition hospitalForm : string -> JsValue :=
  fun k => if k =? "hospital" then JsString "h1" else JsUndefined.

(** Static options: neither [loadOptions] nor [dependsOn]. *)
Definition staticProps : Props :=
  mkProps "specialties" noForm "Specialites" None
          [cardio; derma; neuro] false None None.

Definition networkDown : Exn := Error "network down".

(** [loadOptions] that always rejects. *)
Definition failingProps : Props :=
  mkProps "specialties" noForm "Specialites" None
          [cardio] false (Some (fun _ => inl networkDown)) None.

(** Depends on [hospital], which the form leaves empty. *)
Definition dependentProps : Props :=
  mkProps "services" noForm "Services" None
          [cardio] false (Some (fun _ => inr [derma; neuro]))
          (Some "hospital").

(** Depends on [hospital], which the form has filled in. *)
Definition readyProps : Props :=
  mkProps "services" hospitalForm "Services" None
          [cardio] false (Some (fun _ => inr [derma; neuro]))
          (Some "hospital").

Definition idle (fv : option (list string)) : State :=
  mkState [cardio; derma; neuro] false fv.

Definition photo : ProfileHeader.File :=
  ProfileHeader.mkFile "me.png" "image/png".

Definition browser : ProfileHeader.Env :=
  ProfileHeader.mkEnv (fun f => inr ("blob:" ++ ProfileHeader.file_name f)%string)
                      (fun _ => inr tt).

Definition resting : ProfileHeader.State :=
  ProfileHeader.mkState false false.

(** A disabled field with static options. *)
Definition lockedProps : Props :=
  mkProps "specialties" noForm "Specialites" (Some "")
          [cardio; derma; neuro] true None None.

(** A toast hook that throws, and a browser that cannot make object URLs. *)
Definition brokenToast : ProfileHeader.Env :=
  ProfileHeader.mkEnv (fun _ => inl networkDown) (fun _ => inl networkDown).

Definition noBlobs : ProfileHeader.Env :=
  ProfileHeader.mkEnv (fun _ => inl networkDown) (fun _ => inr tt).

End Samples.

(** ** Lists of selected values *)

Section SelectionLists.

Lemma includes_In (l : list string) (x : string) :
  includes l x = true <-> In x l.
Proof.
  unfold includes. rewrite existsb_exists. split.
  - intros [y [Hy Heq]]. apply String.eqb_eq in Heq. now subst.
  - intros H. exists x. split; [assumption | apply String.eqb_refl].
Qed.

Lemma includes_not_In (l : list string) (x : string) :
  includes l x = false <-> ~ In x l.
Proof.
  rewrite <- includes_In. destruct (includes l x); split; intros H;
    try discriminate; congruence.
Qed.

Lemma In_without (x y : string) (l : list string) :
  In y (without x l) <-> In y l /\ y <> x.
Proof.
  unfold without. rewrite filter_In, negb_true_iff, String.eqb_neq.
  reflexivity.
Qed.

Lemma without_absent (x : string) (l : list string) :
  ~ In x l -> without x l = l.
Proof.
  induction l as [|y l IH]; simpl; intros H; [reflexivity|].
  destruct (String.eqb_spec y x) as [->|Hne]; simpl.
  - elim H. now left.
  - f_equal. apply IH. intros Hin. apply H. now right.
Qed.

Lemma without_app (x : string) (l l' : list string) :
  without x (l ++ l') = without x l ++ without x l'.
Proof. apply filter_app. Qed.

Lemma without_self (x : string) : without x [x] = [].
Proof. unfold without. simpl. now rewrite String.eqb_refl. Qed.

Lemma NoDup_without (x : string) (l : list string) :
  NoDup l -> NoDup (without x l).
Proof. apply NoDup_filter. Qed.

Lemma NoDup_snoc (x : string) (l : list string) :
  NoDup l -> ~ In x l -> NoDup (l ++ [x]).
Proof.
  induction l as [|y l IH]; simpl; intros Hnd Hx.
  - constructor; [tauto | constructor].
  - inversion Hnd as [|? ? Hy Hl]; subst. constructor.
    + rewrite in_app_iff. simpl. intros [Hin | [Heq | []]]; [tauto|].
      apply Hx. now left.
    + apply IH; tauto.
Qed.

(** [without] is the Standard Library's [remove]: every occurrence goes,
    the rest keeps its order. *)
Lemma without_remove (x : string) (l : list string) :
  without x l = remove string_dec x l.
Proof.
  induction l as [|y l IH]; simpl; [reflexivity|].
  destruct (string_dec x y) as [->|Hne].
  - now rewrite String.eqb_refl.
  - destruct (String.eqb_spec y x) as [->|_]; [congruence|].
    simpl. now f_equal.
Qed.

End SelectionLists.

(** ** What the multi-select shows *)

Section Displayed.
Import MultiSelect.

Lemma group_items_map (fv : option (list string)) (opts : list Option) :
  group_items (map (fun o => Item (commandItem fv o)) opts)
  = map (commandItem fv) opts.
Proof. induction opts as [|o opts IH]; simpl; congruence. Qed.

(** The dropdown shows one item per option, unless it is loading. *)
Lemma displayed_items (s : State) :
  command_items (renderCommand s)
  = if loading s then [] else map (commandItem (fieldValue s)) (options s).
Proof.
  unfold renderCommand, renderGroup.
  destruct (loading s); simpl; [reflexivity|].
  rewrite app_nil_r, andb_true_r.
  destruct (options s) as [|o opts]; simpl; [reflexivity|].
  now rewrite group_items_map.
Qed.

Lemma displayed_item_inv (s : State) (it : CommandItem) :
  In it (command_items (renderCommand s)) ->
  exists o, In o (options s) /\ it = commandItem (fieldValue s) o.
Proof.
  rewrite displayed_items. destruct (loading s); simpl; [tauto|].
  rewrite in_map_iff. intros [o [Heq Hin]]. eauto.
Qed.

Lemma option_is_displayed (s : State) (o : Option) :
  loading s = false -> In o (options s) ->
  In (commandItem (fieldValue s) o) (command_items (renderCommand s)).
Proof.
  intros Hl Hin. rewrite displayed_items, Hl. now apply in_map.
Qed.

(** The trigger shows one badge per selected value. *)
Lemma displayed_badge_inv (p : Props) (s : State) (bs : list Badge)
      (b : Badge) :
  trigger_content (renderTrigger p s) = Badges bs -> In b bs ->
  exists v, fieldValue s = Some v /\ In (badge_key b) v
            /\ b = badge p s v (badge_key b).
Proof.
  unfold renderTrigger; simpl.
  destruct (loading s); [discriminate|].
  destruct (truthy (dependsOn p) && negb (hasDependencyValue p));
    [discriminate|].
  destruct (fieldValue s) as [[|x v]|]; try discriminate.
  intros [= <-] Hin.
  change (In b (map (badge p s (x :: v)) (x :: v))) in Hin.
  apply in_map_iff in Hin as [y [<- Hy]].
  exists (x :: v). simpl. auto.
Qed.

Lemma selected_is_badged (p : Props) (s : State) (v : list string)
      (x : string) :
  loading s = false ->
  truthy (dependsOn p) && negb (hasDependencyValue p) = false ->
  fieldValue s = Some v -> In x v ->
  exists bs, trigger_content (renderTrigger p s) = Badges bs
             /\ In (badge p s v x) bs.
Proof.
  intros Hl Hb Hv Hin. unfold renderTrigger; simpl.
  rewrite Hl, Hb, Hv. destruct v as [|y v]; [contradiction|].
  exists (map (badge p s (y :: v)) (y :: v)).
  split; [reflexivity|]. now apply in_map.
Qed.

Lemma run_field_onChange (l : list string) (s : State) :
  field_onChange l s
  = mkRun (mkState (options s) (loading s) (Some l))
          [FieldOnChange l] (Returned tt).
Proof. reflexivity. Qed.

Lemma run_item_onSelect (fv : option (list string)) (o : Option)
      (s : State) :
  item_onSelect fv o s
  = field_onChange (if isSelected fv o
                    then without (value o) (selection fv)
                    else selection fv ++ [value o]) s.
Proof. reflexivity. Qed.

Lemma run_badge_onClick (p : Props) (v : list string) (x : string)
      (s : State) :
  badge_onClick p v x s
  = if disabled p then mkRun s [StopPropagation] (Returned tt)
    else mkRun (mkState (options s) (loading s) (Some (without x v)))
               [StopPropagation; FieldOnChange (without x v)] (Returned tt).
Proof. unfold badge_onClick. destruct (disabled p); reflexivity. Qed.

End Displayed.

(** ** Selecting and deselecting *)

Section Toggle.
Import MultiSelect.

(** C1. Selecting an option adds it to the value set: for the current
    selection [v] (the empty list when the field is unset) and every
    option item the dropdown shows whose value is not in [v], its
    [onSelect] handler makes exactly one call, [field.onChange] with [v]
    followed by that value, and the field then holds that list. *)
Theorem select_appends (s s' : State) (it : CommandItem) :
  In it (command_items (renderCommand s)) ->
  ~ In (item_value it) (selection (fieldValue s)) ->
  trace (onSelect it s')
  = [FieldOnChange (selection (fieldValue s) ++ [item_value it])]
  /\ outcome (onSelect it s') = Returned tt
  /\ fieldValue (final (onSelect it s'))
     = Some (selection (fieldValue s) ++ [item_value it]).
Proof.
  intros Hshown Hnew.
  destruct (displayed_item_inv s it Hshown) as [o [_ ->]].
  cbn [commandItem onSelect item_value] in *. rewrite run_item_onSelect.
  assert (Hsel : isSelected (fieldValue s) o = false).
  { unfold isSelected. destruct (fieldValue s) as [v|]; [|reflexivity].
    now apply includes_not_In. }
  rewrite Hsel, run_field_onChange. simpl. auto.
Qed.

Lemma select_appends_witness :
  trace (onSelect (commandItem (Some ["cardio"]) Samples.derma)
                  (Samples.idle (Some ["cardio"])))
  = [FieldOnChange ["cardio"; "derma"]].
Proof.
  apply (select_appends (Samples.idle (Some ["cardio"]))
                        (Samples.idle (Some ["cardio"]))
                        (commandItem (Some ["cardio"]) Samples.derma)).
  - simpl. right. left. reflexivity.
  - simpl. intros [H | []]. discriminate H.
Defined.

(** C2. Deselecting removes it: for a selection [v] and a value [x] in
    [v], the [onSelect] handler of the shown item for [x] and, when the
    component is not disabled, the [onClick] handler of the badge for [x]
    both call [field.onChange] with [v] minus every occurrence of [x], the
    remaining values in their order. *)
Theorem deselect_removes (p : Props) (s s' : State) (v : list string)
        (x : string) :
  fieldValue s = Some v -> In x v ->
  (forall it, In it (command_items (renderCommand s)) ->
              item_value it = x ->
              trace (onSelect it s') = [FieldOnChange (remove string_dec x v)]
              /\ fieldValue (final (onSelect it s'))
                 = Some (remove string_dec x v))
  /\ (disabled p = false ->
      forall bs b, trigger_content (renderTrigger p s) = Badges bs ->
                   In b bs -> badge_key b = x ->
                   trace (onClick b s')
                   = [StopPropagation; FieldOnChange (remove string_dec x v)]
                   /\ fieldValue (final (onClick b s'))
                      = Some (remove string_dec x v)).
Proof.
  intros Hv Hx. rewrite <- without_remove. split.
  - intros it Hshown Hval.
    destruct (displayed_item_inv s it Hshown) as [o [_ ->]].
    cbn [commandItem onSelect item_value] in *. subst x.
    rewrite run_item_onSelect, Hv. cbn [isSelected selection].
    apply includes_In in Hx. rewrite Hx. auto.
  - intros Hen bs b Hbs Hb Hkey.
    destruct (displayed_badge_inv p s bs b Hbs Hb) as [v' [Hv' [_ ->]]].
    assert (v' = v) by congruence. subst v'.
    cbn [badge onClick badge_key] in *. subst x.
    rewrite run_badge_onClick, Hen. auto.
Qed.

Lemma deselect_removes_witness :
  trace (onSelect (commandItem (Some ["cardio"; "derma"]) Samples.cardio)
                  (Samples.idle (Some ["cardio"; "derma"])))
  = [FieldOnChange ["derma"]]
  /\ trace (onClick (badge Samples.staticProps
                           (Samples.idle (Some ["cardio"; "derma"]))
                           ["cardio"; "derma"] "cardio")
                    (Samples.idle (Some ["cardio"; "derma"])))
     = [StopPropagation; FieldOnChange ["derma"]].
Proof.
  pose proof (deselect_removes Samples.staticProps
                (Samples.idle (Some ["cardio"; "derma"]))
                (Samples.idle (Some ["cardio"; "derma"]))
                ["cardio"; "derma"] "cardio" eq_refl
                (or_introl eq_refl)) as [Hitem Hbadge].
  split.
  - apply (Hitem (commandItem (Some ["cardio"; "derma"]) Samples.cardio)).
    + simpl. left. reflexivity.
    + reflexivity.
  - eapply (Hbadge eq_refl); [reflexivity | | reflexivity].
    simpl. left. reflexivity.
Defined.

(** C4. The selection is a set of option values: when the current
    selection has no duplicates, every list a select or deselect
    operation hands to [field.onChange] has none either. A shown option's
    [onSelect] makes exactly one such call, whether or not the option is
    already selected; a badge's [onClick] makes at most one. *)
Theorem selection_stays_duplicate_free (p : Props) (s s' : State) :
  NoDup (selection (fieldValue s)) ->
  (forall it, In it (command_items (renderCommand s)) ->
              exists l, trace (onSelect it s') = [FieldOnChange l]
                        /\ NoDup l)
  /\ (forall bs b, trigger_content (renderTrigger p s) = Badges bs ->
                   In b bs ->
                   forall l, In (FieldOnChange l) (trace (onClick b s')) ->
                             NoDup l).
Proof.
  intros Hnd. split.
  - intros it Hshown.
    destruct (displayed_item_inv s it Hshown) as [o [_ ->]].
    cbn [commandItem onSelect].
    rewrite run_item_onSelect, run_field_onChange. cbn [trace].
    eexists. split; [reflexivity|].
    destruct (isSelected (fieldValue s) o) eqn:Hsel.
    + now apply NoDup_without.
    + apply NoDup_snoc; [assumption|].
      unfold isSelected in Hsel.
      destruct (fieldValue s) as [v|]; simpl; [|tauto].
      now apply includes_not_In.
  - intros bs b Hbs Hb l Hin.
    destruct (displayed_badge_inv p s bs b Hbs Hb) as [v [Hv [_ Heq]]].
    rewrite Heq in Hin. cbn [badge onClick] in Hin.
    rewrite run_badge_onClick in Hin.
    rewrite Hv in Hnd. simpl in Hnd.
    destruct (disabled p); simpl in Hin.
    + destruct Hin as [H | []]. discriminate H.
    + destruct Hin as [H | [H | []]]; [discriminate H|].
      injection H as <-. now apply NoDup_without.
Qed.

Lemma selection_stays_duplicate_free_witness :
  exists l,
    trace (onSelect (commandItem (Some ["cardio"; "derma"]) Samples.neuro)
                    (Samples.idle (Some ["cardio"; "derma"])))
    = [FieldOnChange l] /\ NoDup l.
Proof.
  refine (proj1 (selection_stays_duplicate_free Samples.staticProps
                   (Samples.idle (Some ["cardio"; "derma"]))
                   (Samples.idle (Some ["cardio"; "derma"])) _) _ _).
  - simpl. repeat constructor; simpl; intuition discriminate.
  - simpl. right. right. left. reflexivity.
Defined.

(** C6. Toggling round-trips: when [x] is not in the selection, selecting
    the option for [x] and then deselecting it, through the re-rendered
    option item or through its badge, leaves the selection as it was. *)
Theorem select_then_deselect (p : Props) (s : State) (o : Option) :
  ~ In (value o) (selection (fieldValue s)) ->
  let s1 := final (onSelect (commandItem (fieldValue s) o) s) in
  selection (fieldValue
               (final (onSelect (commandItem (fieldValue s1) o) s1)))
  = selection (fieldValue s)
  /\ (disabled p = false ->
      selection (fieldValue
                   (final (onClick (badge p s1 (selection (fieldValue s1))
                                          (value o)) s1)))
      = selection (fieldValue s)).
Proof.
  intros Hnew. cbn zeta. cbn [commandItem onSelect badge onClick].
  assert (Hsel : isSelected (fieldValue s) o = false).
  { unfold isSelected. destruct (fieldValue s) as [v|]; [|reflexivity].
    now apply includes_not_In. }
  rewrite !run_item_onSelect, Hsel, !run_field_onChange.
  cbn [final fieldValue selection isSelected].
  assert (Hin : includes (selection (fieldValue s) ++ [value o]) (value o)
                = true).
  { apply includes_In, in_or_app. right. now left. }
  assert (Hback : without (value o) (selection (fieldValue s) ++ [value o])
                  = selection (fieldValue s)).
  { rewrite without_app, without_self, app_nil_r.
    now apply without_absent. }
  rewrite Hin. split; [exact Hback|].
  intros Hen. rewrite run_badge_onClick, Hen. exact Hback.
Qed.

Lemma select_then_deselect_witness :
  let s := Samples.idle (Some ["cardio"]) in
  let s1 := final (onSelect (commandItem (fieldValue s) Samples.derma) s) in
  selection (fieldValue
               (final (onSelect (commandItem (fieldValue s1) Samples.derma)
                                s1)))
  = ["cardio"].
Proof.
  refine (proj1 (select_then_deselect Samples.staticProps
                   (Samples.idle (Some ["cardio"])) Samples.derma _)).
  simpl. intros [H | []]. discriminate H.
Defined.

(** C7. The options list may be empty: with no options and [loading]
    false the dropdown shows the search input, the empty-result element
    and a group holding only the text [Aucune option disponible]; it holds
    no option item. *)
Theorem empty_options_render (fv : option (list string)) :
  renderCommand (mkState [] false fv)
  = [CommandInput "Rechercher...";
     CommandEmpty "Aucun résultat trouvé.";
     CommandGroup [NoOptions "Aucune option disponible"]]
  /\ command_items (renderCommand (mkState [] false fv)) = []
  /\ command_notices (renderCommand (mkState [] false fv))
     = ["Aucune option disponible"].
Proof. repeat split. Qed.

End Toggle.

(** ** The option-loading effect *)

Section Loading.
Import MultiSelect.

(** The three values [hasDependencyValue] treats as no value. *)
Lemma hasValue_false (v : JsValue) :
  hasValue v = false <-> In v [JsUndefined; JsNull; JsString ""].
Proof.
  split.
  - destruct v as [| | b | n | t | l]; simpl; try discriminate; auto.
    destruct (String.eqb_spec t "") as [->|]; simpl; [auto | discriminate].
  - intros [<- | [<- | [<- | []]]]; reflexivity.
Qed.

Lemma truthy_Some (d : string) : truthy (Some d) = true <-> d <> "".
Proof.
  simpl. rewrite negb_true_iff. apply String.eqb_neq.
Qed.

Lemma run_fetchOptions (p : Props) (s : State)
      (load : option FormDataArg -> Exn + list Option) :
  loadOptions p = Some load ->
  fetchOptions p s
  = match load (formDataOf p) with
    | inr fetched =>
        mkRun (mkState fetched false (fieldValue s))
              [SetLoading true; LoadOptionsCalled (formDataOf p);
               SetOptions fetched; SetLoading false]
              (Returned tt)
    | inl error =>
        mkRun (mkState (options s) false (fieldValue s))
              [SetLoading true; LoadOptionsCalled (formDataOf p);
               ConsoleError (errorMessage p) error; SetLoading false]
              (Returned tt)
    end.
Proof.
  intros Hload. unfold fetchOptions. rewrite Hload.
  unfold try_catch_finally, try_finally, try_catch, bind, settle.
  cbn [setLoading emit modify bind final trace outcome app].
  destruct (load (formDataOf p)) as [error | fetched]; reflexivity.
Qed.

Lemma run_fetchOptions_none (p : Props) (s : State) :
  loadOptions p = None -> fetchOptions p s = mkRun s [] (Returned tt).
Proof. intros Hload. unfold fetchOptions. now rewrite Hload. Qed.

(** The effect resets exactly when [dependsOn] is truthy and the watched
    value is missing; otherwise it runs [fetchOptions]. *)
Lemma effect_cases (p : Props) (s : State) :
  (truthy (dependsOn p) = true /\ hasDependencyValue p = false
   /\ effect p s = setOptions [] s)
  \/ ((truthy (dependsOn p) = false \/ hasDependencyValue p = true)
      /\ effect p s = fetchOptions p s).
Proof.
  unfold effect.
  destruct (truthy (dependsOn p)), (hasDependencyValue p); simpl; auto.
Qed.

Lemma effect_call_inv (p : Props) (s : State) (fd : option FormDataArg) :
  In (LoadOptionsCalled fd) (trace (effect p s)) ->
  exists load, loadOptions p = Some load /\ fd = formDataOf p
               /\ effect p s = fetchOptions p s.
Proof.
  destruct (effect_cases p s) as [[_ [_ ->]] | [_ ->]].
  - simpl. intros [H | []]. discriminate H.
  - intros Hin. destruct (loadOptions p) as [load|] eqn:Hload.
    + exists load. split; [reflexivity|]. split; [|reflexivity].
      rewrite (run_fetchOptions p s load Hload) in Hin.
      destruct (load (formDataOf p)); simpl in Hin;
        destruct Hin as [H | [H | [H | [H | []]]]];
        try discriminate H; now injection H.
    + rewrite (run_fetchOptions_none p s Hload) in Hin. destruct Hin.
Qed.

(** C3, as stated, fails: with neither [dependsOn] nor [loadOptions]
    given, the effect makes no call at all, so it does not call
    [loadOptions]. *)
Lemma effect_without_loader :
  dependsOn Samples.staticProps = None
  /\ loadOptions Samples.staticProps = None
  /\ trace (effect Samples.staticProps (Samples.idle None)) = []
  /\ forall fd,
       ~ In (LoadOptionsCalled fd)
            (trace (effect Samples.staticProps (Samples.idle None))).
Proof. repeat split. intros fd []. Qed.

(** C3, amended. When [dependsOn] is a non-empty string and the watched
    dependency value is [undefined], [null] or the empty string, the
    effect only sets the options to the empty list and does not call
    [loadOptions]. When [dependsOn] is absent or empty, or the dependency
    value is none of those three, the effect calls [loadOptions] exactly
    once if a [loadOptions] prop was given, and does nothing if none was. *)
Theorem effect_dependency_gate (p : Props) (s : State) :
  (forall d, dependsOn p = Some d -> d <> "" ->
             In (watch p d) [JsUndefined; JsNull; JsString ""] ->
             trace (effect p s) = [SetOptions []]
             /\ options (final (effect p s)) = []
             /\ loading (final (effect p s)) = loading s)
  /\ ((dependsOn p = None \/ dependsOn p = Some ""
       \/ exists d, dependsOn p = Some d
                    /\ ~ In (watch p d) [JsUndefined; JsNull; JsString ""]) ->
      match loadOptions p with
      | Some load =>
          exists rest,
            trace (effect p s)
            = SetLoading true :: LoadOptionsCalled (formDataOf p) :: rest
            /\ forall fd, ~ In (LoadOptionsCalled fd) rest
      | None => effect p s = mkRun s [] (Returned tt)
      end).
Proof.
  split.
  - intros d Hd Hne Hempty.
    apply truthy_Some in Hne. apply hasValue_false in Hempty.
    unfold effect, hasDependencyValue, dependencyValue.
    rewrite Hd, Hne, Hempty. auto.
  - intros Hfetch.
    assert (Heff : effect p s = fetchOptions p s).
    { destruct (effect_cases p s) as [[Ht [Hv _]] | [_ H]]; [|exact H].
      exfalso. unfold hasDependencyValue, dependencyValue in Hv.
      destruct Hfetch as [Hd | [Hd | [d [Hd Hfull]]]];
        rewrite Hd in *; try discriminate Ht.
      rewrite Ht in Hv. now apply hasValue_false in Hv. }
    rewrite Heff. destruct (loadOptions p) as [load|] eqn:Hload.
    + rewrite (run_fetchOptions p s load Hload).
      destruct (load (formDataOf p)); simpl; eexists;
        (split; [reflexivity|]);
        intros fd [H | [H | []]]; discriminate H.
    + now apply run_fetchOptions_none.
Qed.

Lemma effect_dependency_gate_witness :
  trace (effect Samples.dependentProps (Samples.idle None)) = [SetOptions []]
  /\ exists rest,
       trace (effect Samples.readyProps (Samples.idle None))
       = SetLoading true
         :: LoadOptionsCalled (Some [("hospital", JsString "h1")]) :: rest
       /\ forall fd, ~ In (LoadOptionsCalled fd) rest.
Proof.
  split.
  - apply (proj1 (effect_dependency_gate Samples.dependentProps
                    (Samples.idle None)) "hospital" eq_refl).
    + discriminate.
    + simpl. left. reflexivity.
  - apply (proj2 (effect_dependency_gate Samples.readyProps
                    (Samples.idle None))).
    right. right. exists "hospital". split; [reflexivity|].
    simpl. intros [H | [H | [H | []]]]; discriminate H.
Defined.

(** C5, as stated, fails: when [loadOptions] rejects, the effect logs to
    the console and shows no toast. *)
Lemma fetch_failure_shows_no_toast :
  trace (effect Samples.failingProps (Samples.idle None))
  = [SetLoading true; LoadOptionsCalled None;
     ConsoleError "Erreur lors du chargement des options pour specialties:"
                  Samples.networkDown;
     SetLoading false]
  /\ forall t,
       ~ In (ToastShown t)
            (trace (effect Samples.failingProps (Samples.idle None))).
Proof.
  split; [reflexivity|].
  intros t [H | [H | [H | [H | []]]]]; discriminate H.
Qed.

(** C5, amended. For every rejection of the [loadOptions] call made by
    the effect, the handling is to log the failure, with the field name
    and the error, to the console, and then to set [loading] back to
    false; no toast is shown. The error is not rethrown (the effect
    returns normally), [loadOptions] is not called again and the options
    are left as they were. *)
Theorem fetch_failure_handling (p : Props) (s : State)
        (load : option FormDataArg -> Exn + list Option)
        (fd : option FormDataArg) (err : Exn) :
  loadOptions p = Some load ->
  In (LoadOptionsCalled fd) (trace (effect p s)) ->
  load fd = inl err ->
  trace (effect p s)
  = [SetLoading true; LoadOptionsCalled fd;
     ConsoleError ("Erreur lors du chargement des options pour "
                   ++ name p ++ ":") err;
     SetLoading false]
  /\ outcome (effect p s) = Returned tt
  /\ options (final (effect p s)) = options s.
Proof.
  intros Hload Hcall Hrej.
  destruct (effect_call_inv p s fd Hcall) as [load' [Hload' [-> ->]]].
  rewrite (run_fetchOptions p s load Hload), Hrej. auto.
Qed.

Lemma fetch_failure_handling_witness :
  outcome (effect Samples.failingProps (Samples.idle None)) = Returned tt.
Proof.
  apply (fetch_failure_handling Samples.failingProps (Samples.idle None)
           (fun _ => inl Samples.networkDown) None Samples.networkDown).
  - reflexivity.
  - simpl. right. left. reflexivity.
  - reflexivity.
Defined.

(** C10. If the [loadOptions] call rejects, the effect leaves the
    options as they were (it never calls [setOptions]) and ends with
    [loading] false; the options become the fetched list only when the
    call resolves, and [loading] ends false then too. *)
Theorem fetch_failure_keeps_options (p : Props) (s : State)
        (load : option FormDataArg -> Exn + list Option)
        (fd : option FormDataArg) :
  loadOptions p = Some load ->
  In (LoadOptionsCalled fd) (trace (effect p s)) ->
  (forall err, load fd = inl err ->
               options (final (effect p s)) = options s
               /\ loading (final (effect p s)) = false
               /\ forall l, ~ In (SetOptions l) (trace (effect p s)))
  /\ (forall fetched, load fd = inr fetched ->
                      options (final (effect p s)) = fetched
                      /\ loading (final (effect p s)) = false)
  /\ (forall l, In (SetOptions l) (trace (effect p s)) -> load fd = inr l).
Proof.
  intros Hload Hcall.
  destruct (effect_call_inv p s fd Hcall) as [load' [Hload' [-> ->]]].
  rewrite (run_fetchOptions p s load Hload).
  destruct (load (formDataOf p)) as [error | fetched]; simpl.
  - split; [|split]; try discriminate.
    + intros err _. repeat split.
      intros l [H | [H | [H | [H | []]]]]; discriminate H.
    + intros l [H | [H | [H | [H | []]]]]; discriminate H.
  - split; [|split]; try discriminate.
    + intros l [= <-]. auto.
    + intros l [H | [H | [H | [H | []]]]]; try discriminate H.
      now injection H as <-.
Qed.

Lemma fetch_failure_keeps_options_witness :
  options (final (effect Samples.failingProps (Samples.idle None)))
  = [Samples.cardio; Samples.derma; Samples.neuro]
  /\ loading (final (effect Samples.failingProps (Samples.idle None)))
     = false.
Proof.
  destruct (fetch_failure_keeps_options Samples.failingProps
              (Samples.idle None) (fun _ => inl Samples.networkDown) None
              eq_refl (or_intror (or_introl eq_refl)))
    as [Hrej _].
  destruct (Hrej Samples.networkDown eq_refl) as [Hopts [Hload _]].
  split; [exact Hopts | exact Hload].
Defined.

End Loading.

(** ** The profile image handler *)

Section Upload.
Import ProfileHeader.

(** C8. For every change event that carries a file,
    [handleProfileImageChange] first sets [isUploading] to true, then
    awaits the 1500 ms delay, and, whether the rest of the body completes
    (success toast) or throws (error toast, or none if the toast call
    itself throws), its last action is to set [isUploading] back to
    false: the indicator is off when the handler finishes. *)
Theorem upload_indicator_reset (env : Env) (e : ChangeEvent) (s : State)
        (file : File) (others : list File) :
  files e = Some (file :: others) ->
  exists rest,
    trace (handleProfileImageChange env e s)
    = SetIsUploading true :: Awaited 1500 :: rest ++ [SetIsUploading false]
    /\ (rest = [ToastShown successToast]
        \/ rest = [ToastShown errorToast]
        \/ rest = [])
    /\ isUploading (final (handleProfileImageChange env e s)) = false
    /\ coverIsUploading (final (handleProfileImageChange env e s))
       = coverIsUploading s.
Proof.
  intros Hfiles.
  unfold handleProfileImageChange, firstFile. rewrite Hfiles.
  unfold try_catch_finally, try_finally, try_catch, show_toast, delay,
    setIsUploading, bind, settle.
  cbn [emit modify final trace outcome app].
  destruct (createObjectURL env file) as [err | url];
    [|destruct (toast env successToast) as [err | []];
      [|exists [ToastShown successToast]; cbn; auto]];
    (destruct (toast env errorToast) as [err' | []];
     [exists [] | exists [ToastShown errorToast]]; cbn; auto).
Qed.

Lemma upload_indicator_reset_witness :
  exists rest,
    trace (handleProfileImageChange Samples.browser
             (mkChange (Some [Samples.photo])) Samples.resting)
    = SetIsUploading true :: Awaited 1500 :: rest ++ [SetIsUploading false]
    /\ (rest = [ToastShown successToast]
        \/ rest = [ToastShown errorToast]
        \/ rest = [])
    /\ isUploading (final (handleProfileImageChange Samples.browser
                             (mkChange (Some [Samples.photo]))
                             Samples.resting)) = false
    /\ coverIsUploading (final (handleProfileImageChange Samples.browser
                                  (mkChange (Some [Samples.photo]))
                                  Samples.resting))
       = false.
Proof.
  apply (upload_indicator_reset Samples.browser
           (mkChange (Some [Samples.photo])) Samples.resting
           Samples.photo []).
  reflexivity.
Defined.

(** C9. If the change event carries no file ([e.target.files] is missing
    or has no first element), [handleProfileImageChange] returns at once
    with no effect: the state is untouched, nothing is awaited and no
    toast is shown. *)
Theorem no_file_no_effect (env : Env) (e : ChangeEvent) (s : State) :
  files e = None \/ files e = Some [] ->
  handleProfileImageChange env e s = mkRun s [] (Returned tt).
Proof.
  unfold handleProfileImageChange, firstFile.
  intros [-> | ->]; reflexivity.
Qed.

Lemma no_file_no_effect_witness :
  handleProfileImageChange Samples.browser (mkChange (Some []))
                           Samples.resting
  = mkRun Samples.resting [] (Returned tt).
Proof.
  apply (no_file_no_effect Samples.browser (mkChange (Some []))
           Samples.resting).
  right. reflexivity.
Defined.

End Upload.

(** ** What the trigger button shows *)

Section TriggerView.
Import MultiSelect.

(** While [loading] is true nothing can be toggled: the dropdown holds the
    search input and the spinner only, no option item, and the trigger is
    disabled and reads [Chargement...] whatever is selected. *)
Theorem loading_hides_choices (p : Props) (s : State) :
  loading s = true ->
  renderCommand s = [CommandInput "Rechercher..."; Spinner]
  /\ command_items (renderCommand s) = []
  /\ trigger_disabled (renderTrigger p s) = true
  /\ trigger_content (renderTrigger p s) = Loading "Chargement...".
Proof.
  intros Hl. rewrite displayed_items.
  unfold renderCommand, renderTrigger. rewrite Hl.
  cbn [trigger_disabled trigger_content].
  rewrite orb_true_r. auto.
Qed.

Lemma loading_hides_choices_witness :
  command_items
    (renderCommand (mkState [Samples.cardio] true (Some ["cardio"]))) = []
  /\ trigger_content
       (renderTrigger Samples.staticProps
          (mkState [Samples.cardio] true (Some ["cardio"])))
     = Loading "Chargement...".
Proof.
  destruct (loading_hides_choices Samples.staticProps
              (mkState [Samples.cardio] true (Some ["cardio"])) eq_refl)
    as [_ [Hitems [_ Htext]]].
  split; [exact Hitems | exact Htext].
Defined.

(** A badge is labelled with the raw value when no option has that value,
    or when the first option that has it carries an empty label; otherwise
    with the label of the first option that has the value. *)
Theorem badge_text_fallback (opts : list Option) (x : string) :
  (~ In x (map value opts) -> MultiSelect.badgeText opts x = x)
  /\ (forall before o after,
        opts = before ++ o :: after ->
        ~ In x (map value before) -> value o = x ->
        MultiSelect.badgeText opts x = if label o =? "" then x else label o).
Proof.
  unfold badgeText, find_option. split.
  - intros Hnone.
    destruct (find (fun opt => value opt =? x) opts) as [o|] eqn:Hfind;
      [|reflexivity].
    apply find_some in Hfind as [Hin Heq]. apply String.eqb_eq in Heq.
    elim Hnone. rewrite <- Heq. now apply in_map.
  - intros before o after -> Hnone Hval.
    induction before as [|b before IH]; simpl.
    + rewrite Hval, String.eqb_refl. reflexivity.
    + simpl in Hnone. destruct (String.eqb_spec (value b) x) as [Heq|_].
      * elim Hnone. now left.
      * apply IH. intros Hin. apply Hnone. now right.
Qed.

Lemma badge_text_fallback_witness :
  MultiSelect.badgeText [Samples.cardio; Samples.derma] "neuro" = "neuro"
  /\ MultiSelect.badgeText [Samples.cardio; Samples.derma] "derma"
     = "Dermatologie".
Proof.
  split.
  - apply (proj1 (badge_text_fallback [Samples.cardio; Samples.derma]
                    "neuro")).
    simpl. intros [H | [H | []]]; discriminate H.
  - apply (proj2 (badge_text_fallback [Samples.cardio; Samples.derma]
                    "derma") [Samples.cardio] Samples.derma []).
    + reflexivity.
    + simpl. intros [H | []]. discriminate H.
    + reflexivity.
Defined.

(** When the field is usable (not loading, dependency satisfied) and the
    selection is not empty, the trigger shows one badge per selected value,
    in the order of the selection, each labelled from the current options
    and carrying the remove mark exactly when the field is not disabled. *)
Theorem badges_follow_selection (p : Props) (s : State) (v : list string) :
  loading s = false ->
  truthy (dependsOn p) && negb (hasDependencyValue p) = false ->
  fieldValue s = Some v -> v <> [] ->
  exists bs,
    trigger_content (renderTrigger p s) = Badges bs
    /\ map badge_key bs = v
    /\ map badge_text bs = map (MultiSelect.badgeText (options s)) v
    /\ map badge_x bs = map (fun _ => negb (disabled p)) v.
Proof.
  intros Hl Hb Hv Hne. unfold renderTrigger.
  cbn [trigger_content]. rewrite Hl, Hb, Hv.
  destruct v as [|x v]; [congruence|].
  eexists. split; [reflexivity|].
  rewrite !map_map. cbn [badge badge_key badge_text badge_x].
  rewrite map_id. auto.
Qed.

Lemma badges_follow_selection_witness :
  exists bs,
    trigger_content (renderTrigger Samples.staticProps
                       (Samples.idle (Some ["derma"; "ghost"])))
    = Badges bs
    /\ map badge_key bs = ["derma"; "ghost"]
    /\ map badge_text bs
       = map (MultiSelect.badgeText [Samples.cardio; Samples.derma;
                                     Samples.neuro])
             ["derma"; "ghost"]
    /\ map badge_x bs = map (fun _ => true) ["derma"; "ghost"].
Proof.
  apply (badges_follow_selection Samples.staticProps
           (Samples.idle (Some ["derma"; "ghost"])) ["derma"; "ghost"]);
    try reflexivity.
  discriminate.
Defined.

(** When the field is usable and nothing is selected (the value is unset
    or the empty list), the trigger shows the [placeholder] prop, or
    [Sélectionner...] when that prop is missing or the empty string. *)
Theorem empty_selection_placeholder (p : Props) (s : State) :
  loading s = false ->
  truthy (dependsOn p) && negb (hasDependencyValue p) = false ->
  selection (fieldValue s) = [] ->
  trigger_content (renderTrigger p s)
  = Placeholder match placeholder p with
                | Some "" | None => "Sélectionner..."
                | Some t => t
                end
  /\ trigger_muted (renderTrigger p s) = true.
Proof.
  intros Hl Hb Hsel. unfold renderTrigger.
  cbn [trigger_content trigger_muted]. rewrite Hl, Hb.
  assert (Hfv : fieldValue s = None \/ fieldValue s = Some []).
  { destruct (fieldValue s) as [[|x v]|]; simpl in Hsel; auto.
    discriminate Hsel. }
  destruct (placeholder p) as [[|c t]|]; destruct Hfv as [-> | ->];
    simpl; auto.
Qed.

Lemma empty_selection_placeholder_witness :
  trigger_content (renderTrigger Samples.lockedProps (Samples.idle (Some [])))
  = Placeholder "Sélectionner...".
Proof.
  apply (empty_selection_placeholder Samples.lockedProps
           (Samples.idle (Some []))); reflexivity.
Defined.

(** On a usable field the two views agree, and the badges are the
    selection: the values of the badges on the trigger are the selected
    values in order, and a dropdown item carries the check mark exactly
    when a badge for its value is on the trigger. *)
Theorem check_marks_match_badges (p : Props) (s : State) :
  loading s = false ->
  truthy (dependsOn p) && negb (hasDependencyValue p) = false ->
  map badge_key (trigger_badges (renderTrigger p s))
  = selection (fieldValue s)
  /\ forall it, In it (command_items (renderCommand s)) ->
                (item_checked it = true
                 <-> exists b, In b (trigger_badges (renderTrigger p s))
                               /\ badge_key b = item_value it).
Proof.
  intros Hl Hb.
  assert (Hkeys : map badge_key (trigger_badges (renderTrigger p s))
                  = selection (fieldValue s)).
  { unfold trigger_badges, renderTrigger. cbn [trigger_content].
    rewrite Hl, Hb. destruct (fieldValue s) as [[|x v]|]; try reflexivity.
    rewrite map_map. cbn [badge badge_key selection]. apply map_id. }
  split; [exact Hkeys|].
  intros it Hshown.
  destruct (displayed_item_inv s it Hshown) as [o [_ ->]].
  cbn [commandItem item_checked item_value].
  assert (Hsel : isSelected (fieldValue s) o = true
                 <-> In (value o) (selection (fieldValue s))).
  { unfold isSelected. destruct (fieldValue s) as [v|]; simpl.
    - apply includes_In.
    - split; [discriminate | tauto]. }
  rewrite Hsel, <- Hkeys, in_map_iff. split.
  - intros [b [Hk Hin]]. eauto.
  - intros [b [Hin Hk]]. eauto.
Qed.

Lemma check_marks_match_badges_witness :
  map badge_key
      (trigger_badges (renderTrigger Samples.staticProps
                         (Samples.idle (Some ["neuro"; "cardio"]))))
  = ["neuro"; "cardio"].
Proof.
  apply (proj1 (check_marks_match_badges Samples.staticProps
                  (Samples.idle (Some ["neuro"; "cardio"]))
                  eq_refl eq_refl)).
Defined.

End TriggerView.

(** ** More on the handlers *)

Section Handlers.
Import MultiSelect.

Lemma isSelected_In (fv : option (list string)) (o : Option) :
  isSelected fv o = true <-> In (value o) (selection fv).
Proof.
  unfold isSelected. destruct fv as [v|]; simpl.
  - apply includes_In.
  - split; [discriminate | tauto].
Qed.

Lemma isSelected_eq (fv fv' : option (list string)) (o : Option) :
  (In (value o) (selection fv) <-> In (value o) (selection fv')) ->
  isSelected fv o = isSelected fv' o.
Proof.
  intros Hiff.
  destruct (isSelected fv o) eqn:H1, (isSelected fv' o) eqn:H2;
    try reflexivity.
  - apply isSelected_In, Hiff, isSelected_In in H1. congruence.
  - apply isSelected_In, Hiff, isSelected_In in H2. congruence.
Qed.

(** On a disabled field a badge click only stops the propagation of the
    event: [field.onChange] is not called and the state stays as it was,
    whatever the selection. *)
Theorem disabled_badge_inert (p : Props) (s s' : State) (bs : list Badge)
        (b : Badge) :
  disabled p = true ->
  trigger_content (renderTrigger p s) = Badges bs -> In b bs ->
  onClick b s' = mkRun s' [StopPropagation] (Returned tt).
Proof.
  intros Hdis Hbs Hb.
  destruct (displayed_badge_inv p s bs b Hbs Hb) as [v [_ [_ ->]]].
  cbn [badge onClick]. now rewrite run_badge_onClick, Hdis.
Qed.

Lemma disabled_badge_inert_witness :
  onClick (badge Samples.lockedProps (Samples.idle (Some ["cardio"]))
                 ["cardio"] "cardio")
          (Samples.idle (Some ["cardio"]))
  = mkRun (Samples.idle (Some ["cardio"])) [StopPropagation] (Returned tt).
Proof.
  apply (disabled_badge_inert Samples.lockedProps
           (Samples.idle (Some ["cardio"])) (Samples.idle (Some ["cardio"]))
           [badge Samples.lockedProps (Samples.idle (Some ["cardio"]))
                  ["cardio"] "cardio"]).
  - reflexivity.
  - reflexivity.
  - simpl. left. reflexivity.
Defined.

(** The select and deselect handlers touch the field value only: the
    [options] and [loading] cells are as before, and the handlers return
    normally. *)
Theorem handlers_keep_options (p : Props) (s s' : State) :
  (forall it, In it (command_items (renderCommand s)) ->
              options (final (onSelect it s')) = options s'
              /\ loading (final (onSelect it s')) = loading s'
              /\ outcome (onSelect it s') = Returned tt)
  /\ (forall bs b, trigger_content (renderTrigger p s) = Badges bs ->
                   In b bs ->
                   options (final (onClick b s')) = options s'
                   /\ loading (final (onClick b s')) = loading s'
                   /\ outcome (onClick b s') = Returned tt).
Proof.
  split.
  - intros it Hshown.
    destruct (displayed_item_inv s it Hshown) as [o [_ ->]].
    cbn [commandItem onSelect].
    rewrite run_item_onSelect, run_field_onChange. auto.
  - intros bs b Hbs Hb.
    destruct (displayed_badge_inv p s bs b Hbs Hb) as [v [_ [_ ->]]].
    cbn [badge onClick]. rewrite run_badge_onClick.
    destruct (disabled p), s'; auto.
Qed.

Lemma handlers_keep_options_witness :
  options (final (onSelect (commandItem None Samples.derma)
                           (Samples.idle None)))
  = [Samples.cardio; Samples.derma; Samples.neuro].
Proof.
  apply (proj1 (handlers_keep_options Samples.staticProps
                  (Samples.idle None) (Samples.idle None))
               (commandItem None Samples.derma)).
  simpl. right. left. reflexivity.
Defined.

(** Each [onSelect] flips the check mark of its own option and of no
    other: after the handler has run, the item re-rendered for the same
    option has the opposite mark, and the item of any option with another
    value has the mark it had. *)
Theorem check_mark_toggles (s : State) (o o' : Option) :
  let s1 := final (onSelect (commandItem (fieldValue s) o) s) in
  item_checked (commandItem (fieldValue s1) o)
  = negb (item_checked (commandItem (fieldValue s) o))
  /\ (value o' <> value o ->
      item_checked (commandItem (fieldValue s1) o')
      = item_checked (commandItem (fieldValue s) o')).
Proof.
  cbn zeta. cbn [commandItem onSelect item_checked].
  rewrite run_item_onSelect, run_field_onChange. cbn [final fieldValue].
  destruct (isSelected (fieldValue s) o) eqn:Hsel; split.
  - apply not_true_iff_false. rewrite isSelected_In. cbn [selection].
    rewrite In_without. tauto.
  - intros Hne. apply isSelected_eq. cbn [selection].
    rewrite In_without. tauto.
  - apply isSelected_In. cbn [selection].
    apply in_or_app. right. now left.
  - intros Hne. apply isSelected_eq. cbn [selection].
    rewrite in_app_iff. simpl. intuition congruence.
Qed.

Lemma check_mark_toggles_witness :
  let s := Samples.idle (Some ["cardio"]) in
  let s1 := final (onSelect (commandItem (fieldValue s) Samples.cardio) s) in
  item_checked (commandItem (fieldValue s1) Samples.derma)
  = item_checked (commandItem (fieldValue s) Samples.derma).
Proof.
  apply (proj2 (check_mark_toggles (Samples.idle (Some ["cardio"]))
                  Samples.cardio Samples.derma)).
  discriminate.
Defined.

Lemma without_then_append_perm (x : string) (v : list string) :
  NoDup v -> In x v -> Permutation (without x v ++ [x]) v.
Proof.
  induction v as [|y v IH]; intros Hnd Hin; [destruct Hin|].
  inversion Hnd as [|? ? Hy Hv]; subst. simpl.
  destruct (String.eqb_spec y x) as [->|Hne]; simpl.
  - rewrite (without_absent x v Hy).
    apply Permutation_sym, Permutation_cons_append.
  - constructor. apply IH; [assumption|].
    destruct Hin as [Heq | Hin]; [congruence | assumption].
Qed.

(** Deselecting a selected value and selecting it again does not restore
    the order: the value comes back at the end of the list. On a
    duplicate-free selection the result holds the same values as before. *)
Theorem deselect_then_select (s : State) (o : Option) :
  In (value o) (selection (fieldValue s)) ->
  let s1 := final (onSelect (commandItem (fieldValue s) o) s) in
  let s2 := final (onSelect (commandItem (fieldValue s1) o) s1) in
  fieldValue s2
  = Some (remove string_dec (value o) (selection (fieldValue s))
          ++ [value o])
  /\ (NoDup (selection (fieldValue s)) ->
      Permutation (selection (fieldValue s2)) (selection (fieldValue s))).
Proof.
  intros Hin. cbn zeta. cbn [commandItem onSelect].
  rewrite !run_item_onSelect, !run_field_onChange.
  cbn [final fieldValue].
  assert (Hsel : isSelected (fieldValue s) o = true)
    by now apply isSelected_In.
  rewrite Hsel.
  assert (Hgone : isSelected
                    (Some (without (value o) (selection (fieldValue s)))) o
                  = false).
  { apply not_true_iff_false. rewrite isSelected_In. cbn [selection].
    rewrite In_without. tauto. }
  rewrite Hgone. cbn [selection]. rewrite <- without_remove.
  split; [reflexivity|].
  intros Hnd. now apply without_then_append_perm.
Qed.

Lemma deselect_then_select_witness :
  let s := Samples.idle (Some ["cardio"; "derma"]) in
  let s1 := final (onSelect (commandItem (fieldValue s) Samples.cardio) s) in
  fieldValue
    (final (onSelect (commandItem (fieldValue s1) Samples.cardio) s1))
  = Some ["derma"; "cardio"].
Proof.
  apply (proj1 (deselect_then_select
                  (Samples.idle (Some ["cardio"; "derma"])) Samples.cardio
                  (or_introl eq_refl))).
Defined.

End Handlers.

(** ** More on the option-loading effect *)

Section EffectView.
Import MultiSelect.

Lemma dependency_missing (p : Props) :
  truthy (dependsOn p) = true /\ hasDependencyValue p = false
  <-> exists d, dependsOn p = Some d /\ d <> ""
                /\ In (watch p d) [JsUndefined; JsNull; JsString ""].
Proof.
  unfold hasDependencyValue, dependencyValue. split.
  - intros [Ht Hv]. destruct (dependsOn p) as [d|]; [|discriminate Ht].
    rewrite Ht in Hv. exists d. repeat split.
    + now apply truthy_Some.
    + now apply hasValue_false.
  - intros [d [-> [Hne Hin]]]. apply truthy_Some in Hne.
    rewrite Hne. split; [reflexivity | now apply hasValue_false].
Qed.

(** The final state of the effect, by cases. *)
Lemma effect_final (p : Props) (s : State) :
  final (effect p s)
  = if truthy (dependsOn p) && negb (hasDependencyValue p)
    then mkState [] (loading s) (fieldValue s)
    else match loadOptions p with
         | None => s
         | Some load =>
             mkState match load (formDataOf p) with
                     | inr fetched => fetched
                     | inl _ => options s
                     end
                     false (fieldValue s)
         end.
Proof.
  destruct (effect_cases p s) as [[Ht [Hv ->]] | [Hc ->]].
  - rewrite Ht, Hv. reflexivity.
  - replace (truthy (dependsOn p) && negb (hasDependencyValue p))
      with false
      by (destruct Hc as [-> | ->];
          [reflexivity | now rewrite andb_false_r]).
    destruct (loadOptions p) as [load|] eqn:Hload.
    + rewrite (run_fetchOptions p s load Hload).
      destruct (load (formDataOf p)); reflexivity.
    + now rewrite (run_fetchOptions_none p s Hload).
Qed.



(** When the dependency is cleared on a field that is not loading, the
    effect leaves the selection in the form untouched and the field
    unusable: the dropdown holds no option item, only the text
    [Aucune option disponible], and the trigger is disabled and asks for
    the dependency by name instead of showing the selected badges. *)
Theorem dependency_cleared_view (p : Props) (s : State) (d : string) :
  dependsOn p = Some d -> d <> "" ->
  In (watch p d) [JsUndefined; JsNull; JsString ""] ->
  loading s = false ->
  fieldValue (final (effect p s)) = fieldValue s
  /\ command_items (renderCommand (final (effect p s))) = []
  /\ command_notices (renderCommand (final (effect p s)))
     = ["Aucune option disponible"]
  /\ trigger_disabled (renderTrigger p (final (effect p s))) = true
  /\ trigger_content (renderTrigger p (final (effect p s)))
     = SelectFirst ("Sélectionnez d'abord un " ++ d).
Proof.
  intros Hd Hne Hin Hl.
  assert (Hmiss : truthy (dependsOn p) = true
                  /\ hasDependencyValue p = false).
  { apply dependency_missing. eauto. }
  destruct Hmiss as [Ht Hv].
  rewrite effect_final, Ht, Hv. cbn [andb negb].
  unfold renderTrigger, renderCommand, renderGroup.
  cbn [options loading fieldValue trigger_disabled trigger_content].
  rewrite Hl, Ht, Hv, Hd. cbn. rewrite orb_true_r. auto.
Qed.

Lemma dependency_cleared_view_witness :
  trigger_content
    (renderTrigger Samples.dependentProps
       (final (effect Samples.dependentProps
                 (Samples.idle (Some ["cardio"])))))
  = SelectFirst "Sélectionnez d'abord un hospital"
  /\ fieldValue (final (effect Samples.dependentProps
                          (Samples.idle (Some ["cardio"]))))
     = Some ["cardio"].
Proof.
  destruct (dependency_cleared_view Samples.dependentProps
              (Samples.idle (Some ["cardio"])) "hospital" eq_refl)
    as [Hfield [_ [_ [_ Htext]]]].
  - discriminate.
  - simpl. left. reflexivity.
  - reflexivity.
  - split; [exact Htext | exact Hfield].
Defined.

(** [loadOptions] never receives an empty dependency: every call the
    effect makes passes either no argument, when [dependsOn] is absent or
    empty, or the one-key object holding the watched value under the
    [dependsOn] key, and that value is then none of [undefined], [null]
    and the empty string. *)
Theorem loadOptions_argument (p : Props) (s : State)
        (fd : option FormDataArg) :
  In (LoadOptionsCalled fd) (trace (effect p s)) ->
  (fd = None /\ (dependsOn p = None \/ dependsOn p = Some ""))
  \/ exists d, dependsOn p = Some d /\ d <> ""
               /\ fd = Some [(d, watch p d)]
               /\ ~ In (watch p d) [JsUndefined; JsNull; JsString ""].
Proof.
  intros Hcall.
  destruct (effect_call_inv p s fd Hcall) as [load [_ [-> _]]].
  assert (Hgate : truthy (dependsOn p) && negb (hasDependencyValue p)
                  = false).
  { destruct (effect_cases p s) as [[_ [_ Heff]] | [[-> | ->] _]];
      [| reflexivity | apply andb_false_r].
    rewrite Heff in Hcall. simpl in Hcall.
    destruct Hcall as [H | []]. discriminate H. }
  unfold formDataOf, hasDependencyValue, dependencyValue in *.
  destruct (dependsOn p) as [d|]; [|left; auto].
  destruct (truthy (Some d)) eqn:Ht.
  - right. exists d. apply truthy_Some in Ht.
    repeat split; try assumption.
    rewrite <- hasValue_false. simpl in Hgate.
    apply negb_false_iff in Hgate. congruence.
  - left. split; [reflexivity|]. right. f_equal.
    simpl in Ht. apply negb_false_iff in Ht. now apply String.eqb_eq.
Qed.

Lemma loadOptions_argument_witness :
  exists d, dependsOn Samples.readyProps = Some d /\ d <> ""
            /\ Some [("hospital", JsString "h1")]
               = Some [(d, watch Samples.readyProps d)]
            /\ ~ In (watch Samples.readyProps d)
                    [JsUndefined; JsNull; JsString ""].
Proof.
  destruct (loadOptions_argument Samples.readyProps (Samples.idle None)
              (Some [("hospital", JsString "h1")])
              (or_intror (or_introl eq_refl)))
    as [[Hnone _] | Hsome].
  - discriminate Hnone.
  - exact Hsome.
Defined.

(** The effect never touches the form field and never throws: whatever
    it does to the options, it makes no [field.onChange] call, the field
    value is as before, and it returns normally even when [loadOptions]
    rejects. Selected values may therefore outlive their options. *)
Theorem effect_keeps_field (p : Props) (s : State) :
  fieldValue (final (effect p s)) = fieldValue s
  /\ outcome (effect p s) = Returned tt
  /\ forall l, ~ In (FieldOnChange l) (trace (effect p s)).
Proof.
  destruct (effect_cases p s) as [[_ [_ ->]] | [_ ->]].
  - repeat split. intros l [H | []]. discriminate H.
  - destruct (loadOptions p) as [load|] eqn:Hload.
    + rewrite (run_fetchOptions p s load Hload).
      destruct (load (formDataOf p)) as [error | fetched]; repeat split;
        intros v [H | [H | [H | [H | []]]]]; discriminate H.
    + rewrite (run_fetchOptions_none p s Hload). repeat split.
      intros v [].
Qed.


(** After a load that resolves, the dropdown shows exactly the fetched
    options, one item each and in the fetched order, checked against the
    selection the field already had; with an empty fetched list it shows
    the [Aucune option disponible] text. *)
Theorem fetched_options_displayed (p : Props) (s : State)
        (load : option FormDataArg -> Exn + list Option)
        (fd : option FormDataArg) (fetched : list Option) :
  loadOptions p = Some load ->
  In (LoadOptionsCalled fd) (trace (effect p s)) ->
  load fd = inr fetched ->
  command_items (renderCommand (final (effect p s)))
  = map (commandItem (fieldValue s)) fetched
  /\ (fetched = [] ->
      command_notices (renderCommand (final (effect p s)))
      = ["Aucune option disponible"]).
Proof.
  intros Hload Hcall Hres.
  destruct (effect_call_inv p s fd Hcall) as [load' [_ [-> Heff]]].
  rewrite Heff, (run_fetchOptions p s load Hload), Hres.
  cbn [final]. rewrite displayed_items. cbn [loading options fieldValue].
  split; [reflexivity|]. intros ->. reflexivity.
Qed.

Lemma fetched_options_displayed_witness :
  command_items
    (renderCommand (final (effect Samples.readyProps
                             (Samples.idle (Some ["derma"])))))
  = map (commandItem (Some ["derma"])) [Samples.derma; Samples.neuro].
Proof.
  apply (fetched_options_displayed Samples.readyProps
           (Samples.idle (Some ["derma"]))
           (fun _ => inr [Samples.derma; Samples.neuro])
           (Some [("hospital", JsString "h1")])
           [Samples.derma; Samples.neuro]).
  - reflexivity.
  - simpl. right. left. reflexivity.
  - reflexivity.
Defined.

End EffectView.

(** ** More on the profile header *)

Section Header.
Import ProfileHeader.

(** [handleCoverImageChange] has neither the file guard nor the
    [try]/[catch] of the profile handler: for every event, with or without
    a file, it awaits the 1500 ms delay and then calls the success toast.
    The cover flag is set back to false before that call, so it is false
    at the end even when the toast throws, and that exception escapes the
    handler. [isUploading] is never touched. *)
Theorem cover_upload_unguarded (env : Env) (e : ChangeEvent) (s : State) :
  coverIsUploading (final (handleCoverImageChange env e s)) = false
  /\ isUploading (final (handleCoverImageChange env e s)) = isUploading s
  /\ match toast env coverToast with
     | inr _ =>
         trace (handleCoverImageChange env e s)
         = [Awaited 1500; ToastShown coverToast]
         /\ outcome (handleCoverImageChange env e s) = Returned tt
     | inl err =>
         trace (handleCoverImageChange env e s) = [Awaited 1500]
         /\ outcome (handleCoverImageChange env e s) = Thrown err
     end.
Proof.
  unfold handleCoverImageChange, show_toast.
  destruct (toast env coverToast) as [err | []];
    repeat split; reflexivity.
Qed.

(** With a file in the event, the profile handler shows the success toast
    when the body runs through and the error toast when making the object
    URL throws, and returns normally in both cases; the only exception it
    can let escape is one thrown by the error toast itself. *)
Theorem profile_upload_outcome (env : Env) (e : ChangeEvent) (s : State)
        (file : File) (others : list File) :
  files e = Some (file :: others) ->
  (forall url, createObjectURL env file = inr url ->
               toast env successToast = inr tt ->
               trace (handleProfileImageChange env e s)
               = [SetIsUploading true; Awaited 1500;
                  ToastShown successToast; SetIsUploading false]
               /\ outcome (handleProfileImageChange env e s) = Returned tt)
  /\ (forall err, createObjectURL env file = inl err ->
                  toast env errorToast = inr tt ->
                  trace (handleProfileImageChange env e s)
                  = [SetIsUploading true; Awaited 1500;
                     ToastShown errorToast; SetIsUploading false]
                  /\ outcome (handleProfileImageChange env e s)
                     = Returned tt)
  /\ (forall err, outcome (handleProfileImageChange env e s) = Thrown err ->
                  toast env errorToast = inl err).
Proof.
  intros Hfiles.
  unfold handleProfileImageChange, firstFile. rewrite Hfiles.
  unfold show_toast.
  destruct (createObjectURL env file) as [e1 | url];
    destruct (toast env successToast) as [e2 | []];
    destruct (toast env errorToast) as [e3 | []];
    (split; [|split]); intros x Hx; try discriminate Hx;
    try (intros Hy; discriminate Hy);
    try (split; reflexivity);
    try (injection Hx as <-; reflexivity).
Qed.

Lemma profile_upload_outcome_witness :
  trace (handleProfileImageChange Samples.noBlobs
           (mkChange (Some [Samples.photo])) Samples.resting)
  = [SetIsUploading true; Awaited 1500;
     ToastShown errorToast; SetIsUploading false]
  /\ outcome (handleProfileImageChange Samples.noBlobs
                (mkChange (Some [Samples.photo])) Samples.resting)
     = Returned tt.
Proof.
  destruct (profile_upload_outcome Samples.noBlobs
              (mkChange (Some [Samples.photo])) Samples.resting
              Samples.photo [] eq_refl) as [_ [Hfail _]].
  apply (Hfail Samples.networkDown); reflexivity.
Defined.






End Header.
